(** * gen-docs.py: the documentation renderer of url-cleaner

    A shallow embedding of [scripts/gen-docs.py].  The script loads the
    bundled cleaner as JSON, takes its [docs] object, deletes the keys
    [name] and [description], and walks the rest with [thing x i], which
    prints Markdown headings, bullet lines and raw lines while a global
    [last] remembers the kind of the previous emission.

    Modelling choices:
    - a JSON value is the inductive [json]; JSON objects keep their key
      order as association lists (Python dicts preserve insertion order);
      numbers are integers (floats are not modelled);
    - strings are Stdlib [string]s of ASCII characters, so [str.title]
      and [repr] are their ASCII behaviour; non-ASCII text, where Python
      title-cases and escapes differently, is outside the model;
    - failures inside [thing] are not modelled: [print] raising
      [UnicodeEncodeError] on a lone surrogate and [RecursionError] on
      very deep nesting have no counterpart here;
    - every call of [print] is one output line; the output of a run is the
      list of printed lines;
    - the global [last] is threaded explicitly: [None] is Python's [None],
      [Some KDict], [Some KStr], [Some KList] stand for [dict], [str],
      [list]. *)

Set Warnings "-register-all".
From Stdlib Require Import String Ascii List ZArith Bool Lia.
From Stdlib Require Import Numbers.DecimalString.
Import ListNotations.
Open Scope string_scope.
Open Scope list_scope.

(** ** JSON values *)

Inductive json : Type :=
| JNull
| JBool (b : bool)
| JNum (z : Z)
| JStr (s : string)
| JArr (l : list json)
| JObj (o : list (string * json)).

(** Induction over [json] that also covers the elements of arrays and
    the values of objects. *)
Section json_rect_deep.
Variable P : json -> Prop.
Hypothesis HNull : P JNull.
Hypothesis HBool : forall b, P (JBool b).
Hypothesis HNum : forall z, P (JNum z).
Hypothesis HStr : forall s, P (JStr s).
Hypothesis HArr : forall l, Forall P l -> P (JArr l).
Hypothesis HObj : forall o, Forall (fun kv => P (snd kv)) o -> P (JObj o).

Fixpoint json_ind_deep (v : json) : P v :=
  match v with
  | JNull => HNull
  | JBool b => HBool b
  | JNum z => HNum z
  | JStr s => HStr s
  | JArr l =>
      HArr l ((fix go (l : list json) : Forall P l :=
                 match l with
                 | [] => Forall_nil _
                 | v' :: l' => Forall_cons _ (json_ind_deep v') (go l')
                 end) l)
  | JObj o =>
      HObj o ((fix go (o : list (string * json))
                 : Forall (fun kv => P (snd kv)) o :=
                 match o with
                 | [] => Forall_nil _
                 | (k, v') :: o' =>
                     Forall_cons (P := fun kv => P (snd kv)) (k, v')
                       (json_ind_deep v') (go o')
                 end) o)
  end.
End json_rect_deep.

(** ** Python string helpers (ASCII) *)

(** [c * n] for a one-character string [c]. *)
Fixpoint repeat_char (c : ascii) (n : nat) : string :=
  match n with O => EmptyString | S n' => String c (repeat_char c n') end.

(** [s.replace("_", " ")] *)
Fixpoint replace_underscore (s : string) : string :=
  match s with
  | EmptyString => EmptyString
  | String c s' =>
      String (if Ascii.eqb c "_"%char then " "%char else c) (replace_underscore s')
  end.

Definition is_upper (c : ascii) : bool :=
  (65 <=? nat_of_ascii c)%nat && (nat_of_ascii c <=? 90)%nat.
Definition is_lower (c : ascii) : bool :=
  (97 <=? nat_of_ascii c)%nat && (nat_of_ascii c <=? 122)%nat.
Definition is_cased (c : ascii) : bool := is_upper c || is_lower c.
Definition to_upper (c : ascii) : ascii :=
  if is_lower c then ascii_of_nat (nat_of_ascii c - 32) else c.
Definition to_lower (c : ascii) : ascii :=
  if is_upper c then ascii_of_nat (nat_of_ascii c + 32) else c.

(** [str.title]: a cased character is upper-cased when the previous
    character is not cased and lower-cased when it is. *)
Fixpoint title_from (prev_cased : bool) (s : string) : string :=
  match s with
  | EmptyString => EmptyString
  | String c s' =>
      if is_cased c
      then String (if prev_cased then to_lower c else to_upper c) (title_from true s')
      else String c (title_from false s')
  end.

Definition py_title (s : string) : string := title_from false s.

Definition Z_to_string (z : Z) : string :=
  NilEmpty.string_of_int (Z.to_int z).

Definition hex_digit (n : nat) : ascii :=
  if (n <? 10)%nat then ascii_of_nat (48 + n) else ascii_of_nat (87 + n).

(** [repr] of an ASCII [str]: single quotes unless the text holds a single
    quote and no double quote; backslash, the quote, tab, newline and
    carriage return are escaped, other control characters as [\xhh]. *)
Definition py_repr_str (s : string) : string :=
  let has c := (fix go s := match s with
                            | EmptyString => false
                            | String c' s' => Ascii.eqb c c' || go s' end) s in
  let q := if has "'"%char && negb (has "034"%char) then "034"%char else "'"%char in
  let esc (c : ascii) : string :=
    let n := nat_of_ascii c in
    if Ascii.eqb c "\"%char then "\\"
    else if Ascii.eqb c q then String "\"%char (String q EmptyString)
    else if Ascii.eqb c "009"%char then "\t"
    else if Ascii.eqb c "010"%char then "\n"
    else if Ascii.eqb c "013"%char then "\r"
    else if (n <? 32)%nat || (n =? 127)%nat
    then String "\"%char (String "x"%char
           (String (hex_digit (n / 16)) (String (hex_digit (n mod 16)) EmptyString)))
    else String c EmptyString in
  let body := (fix go s := match s with
                           | EmptyString => EmptyString
                           | String c s' => (esc c ++ go s')%string end) s in
  String q (body ++ String q EmptyString)%string.

Fixpoint join (sep : string) (l : list string) : string :=
  match l with
  | [] => ""
  | [s] => s
  | s :: l' => (s ++ sep ++ join sep l')%string
  end.

(** [repr] of a JSON value as Python prints it. *)
Fixpoint py_repr (v : json) : string :=
  match v with
  | JNull => "None"
  | JBool true => "True"
  | JBool false => "False"
  | JNum z => Z_to_string z
  | JStr s => py_repr_str s
  | JArr l => ("[" ++ join ", " (map py_repr l) ++ "]")%string
  | JObj o =>
      ("{" ++ join ", " (map (fun kv => py_repr_str (fst kv) ++ ": " ++ py_repr (snd kv))%string o)
      ++ "}")%string
  end.

(** [str(v)], which [print(v)] writes. *)
Definition py_str (v : json) : string :=
  match v with
  | JStr s => s
  | _ => py_repr v
  end.

(** ** The renderer [thing] *)

(** The values the global [last] takes besides [None]: the types [dict],
    [str] and [list]. *)
Inductive kind : Type := KDict | KStr | KList.

Definition kind_eqb (a b : kind) : bool :=
  match a, b with
  | KDict, KDict | KStr, KStr | KList, KList => true
  | _, _ => false
  end.

(** [last is not None and last != dict] *)
Definition blank_before (last : option kind) : bool :=
  match last with
  | None => false
  | Some k => negb (kind_eqb k KDict)
  end.

(** [print("#"*i, k.replace("_", " ").title())] *)
Definition heading (i : nat) (k : string) : string :=
  repeat_char "#"%char i ++ " " ++ py_title (replace_underscore k).

(** [print(f"- `{k}`: {v}")] *)
Definition bullet (k v : string) : string :=
  "- `" ++ k ++ "`: " ++ v.

(** The loop [for (k, v) in x.items()], with the body [f k v] threading
    the global [last]. *)
Fixpoint thing_items
    (f : string -> json -> option kind -> list string * option kind)
    (x : list (string * json)) (last : option kind) : list string * option kind :=
  match x with
  | [] => ([], last)
  | (k, v) :: x' =>
      let '(o1, l1) := f k v last in
      let '(o2, l2) := thing_items f x' l1 in
      ((o1 ++ o2)%list, l2)
  end.

(** The body of the loop for one entry [(k, v)] at heading depth [i]. *)
Fixpoint thing_kv (i : nat) (k : string) (v : json) (last : option kind)
    {struct v} : list string * option kind :=
  match v with
  | JObj x =>
      let sep := if blank_before last then [""] else [] in
      (* last = dict; print heading; print(); thing(v, i+1) *)
      let '(o, l) := thing_items (thing_kv (S i)) x (Some KDict) in
      ((sep ++ heading i k :: "" :: o)%list, l)
  | JStr s => ([bullet k s], Some KStr)
  | JArr ls => (map py_str ls, Some KList)
  | _ => ([], last)
  end.

(** [thing(x, i)]: the printed lines and the final value of [last]. *)
Definition thing (x : list (string * json)) (i : nat) (last : option kind)
    : list string * option kind :=
  thing_items (thing_kv i) x last.

(** ** The script *)

(** The exceptions the script can raise on a parsed document. *)
Inductive exn : Type := KeyError | TypeError.

Fixpoint lookup (k : string) (o : list (string * json)) : option json :=
  match o with
  | [] => None
  | (k', v) :: o' => if String.eqb k k' then Some v else lookup k o'
  end.

(** [del x[k]] on a dict: [None] is the [KeyError] of a missing key. *)
Fixpoint py_del (k : string) (o : list (string * json))
    : option (list (string * json)) :=
  match o with
  | [] => None
  | (k', v) :: o' =>
      if String.eqb k k' then Some o'
      else option_map (cons (k', v)) (py_del k o')
  end.

(** Lines 28-30: [x = json.loads(...)["docs"]; del x["name"];
    del x["description"]].  Subscripting or deleting from a value that is
    not a dict raises [TypeError]. *)
Definition prepare (doc : json) : exn + list (string * json) :=
  match doc with
  | JObj top =>
      match lookup "docs" top with
      | None => inl KeyError
      | Some (JObj x) =>
          match py_del "name" x with
          | None => inl KeyError
          | Some x1 =>
              match py_del "description" x1 with
              | None => inl KeyError
              | Some x2 => inr x2
              end
          end
      | Some _ => inl TypeError
      end
  | _ => inl TypeError
  end.

(** The outcome of one run of the script on the parsed file. *)
Record outcome : Type := {
  out : list string;                        (* lines written to stdout *)
  error : option exn;                       (* uncaught exception *)
  docs_after : option (list (string * json)); (* [x] after a complete run *)
  last_after : option kind                  (* the global [last] at exit *)
}.

(** One run of the module.  [g] is whatever [last] held before: line 7
    rebinds it to [None] before anything else happens. *)
Definition script (g : option kind) (doc : json) : outcome :=
  let g := None in
  match prepare doc with
  | inl e => {| out := []; error := Some e; docs_after := None; last_after := g |}
  | inr x =>
      let '(o, l) := thing x 3 g in
      {| out := o; error := None; docs_after := Some x; last_after := l |}
  end.

Definition main (doc : json) : outcome := script None doc.

(** ** The flattened emission order

    The traversal seen as the sequence of its emissions: a Group heading,
    an Option bullet, or a block of raw lines, in the order the
    depth-first walk reaches them.  [layout] lays such a sequence out with
    the blank-line rule of [thing]. *)

Inductive emission : Type :=
| EGroup (i : nat) (k : string)
| EOption (k v : string)
| ERaw (ls : list string).

Definition emission_kind (e : emission) : kind :=
  match e with
  | EGroup _ _ => KDict
  | EOption _ _ => KStr
  | ERaw _ => KList
  end.

Definition is_group (e : emission) : bool :=
  match e with EGroup _ _ => true | _ => false end.

Definition emit_lines (e : emission) : list string :=
  match e with
  | EGroup i k => [heading i k; ""]
  | EOption k v => [bullet k v]
  | ERaw ls => ls
  end.

Fixpoint items_emissions (g : string -> json -> list emission)
    (x : list (string * json)) : list emission :=
  match x with
  | [] => []
  | (k, v) :: x' => (g k v ++ items_emissions g x')%list
  end.

Fixpoint emissions_kv (i : nat) (k : string) (v : json) {struct v}
    : list emission :=
  match v with
  | JObj x => EGroup i k :: items_emissions (emissions_kv (S i)) x
  | JStr s => [EOption k s]
  | JArr ls => [ERaw (map py_str ls)]
  | _ => []
  end.

Definition emissions (x : list (string * json)) (i : nat) : list emission :=
  items_emissions (emissions_kv i) x.

Fixpoint layout (es : list emission) (last : option kind) : list string :=
  match es with
  | [] => []
  | e :: es' =>
      ((if is_group e && blank_before last then [""] else [])
       ++ emit_lines e ++ layout es' (Some (emission_kind e)))%list
  end.

Fixpoint final_kind (es : list emission) (last : option kind) : option kind :=
  match es with
  | [] => last
  | e :: es' => final_kind es' (Some (emission_kind e))
  end.

(** A Group node of the object [x] at structural depth [d] with key [k]. *)
Inductive group_at : list (string * json) -> nat -> string -> Prop :=
| group_here x k v : In (k, JObj v) x -> group_at x 0 k
| group_below x k' v d k :
    In (k', JObj v) x -> group_at v d k -> group_at x (S d) k.

(** The number of leading [c] characters of a string. *)
Fixpoint count_leading (c : ascii) (s : string) : nat :=
  match s with
  | String c' s' => if Ascii.eqb c c' then S (count_leading c s') else O
  | EmptyString => O
  end.

(** A value the loop has no branch for: neither dict, str nor list. *)
Definition is_scalar (v : json) : bool :=
  match v with JNull | JBool _ | JNum _ => true | _ => false end.

(** ** Measures of a document tree *)

(** Group nodes (dict values) in a value, the value itself included. *)
Fixpoint n_groups (v : json) : nat :=
  match v with
  | JObj x => S (list_sum (map (fun '(_, v') => n_groups v') x))
  | _ => O
  end.

(** Option nodes (str values) in a value. *)
Fixpoint n_options (v : json) : nat :=
  match v with
  | JObj x => list_sum (map (fun '(_, v') => n_options v') x)
  | JStr _ => 1
  | _ => O
  end.

(** Elements of all RawLines (list values) in a value. *)
Fixpoint n_raw (v : json) : nat :=
  match v with
  | JObj x => list_sum (map (fun '(_, v') => n_raw v') x)
  | JArr l => length l
  | _ => O
  end.

(** The string-valued entries [(k, s)] below a value, depth first in key
    order; [k] is the key the value sits under. *)
Fixpoint str_leaves (k : string) (v : json) : list (string * string) :=
  match v with
  | JObj x => concat (map (fun '(k', v') => str_leaves k' v') x)
  | JStr s => [(k, s)]
  | _ => []
  end.

(** No list value anywhere below a value. *)
Fixpoint no_list (v : json) : bool :=
  match v with
  | JObj x => forallb (fun '(_, v') => no_list v') x
  | JArr _ => false
  | _ => true
  end.

(** Lines an emission sequence prints before any inserted blank line,
    and the Group emissions in it. *)
Fixpoint em_len (es : list emission) : nat :=
  match es with
  | [] => O
  | e :: es' => length (emit_lines e) + em_len es'
  end.

Fixpoint em_groups (es : list emission) : nat :=
  match es with
  | [] => O
  | e :: es' => (if is_group e then 1 else 0) + em_groups es'
  end.

(** The lines an entry prints when it is not a Group. *)
Definition flat_entry_lines (kv : string * json) : list string :=
  match kv with
  | (k, JStr s) => [bullet k s]
  | (_, JArr ls) => map py_str ls
  | _ => []
  end.

(** ** Properties of the embedding *)

Lemma layout_app (a b : list emission) (l : option kind) :
  layout (a ++ b) l = (layout a l ++ layout b (final_kind a l))%list.
Proof.
  revert l; induction a as [|e a IH]; intros l; [reflexivity|].
  simpl. rewrite IH. now rewrite !app_assoc.
Qed.

Lemma final_kind_app (a b : list emission) (l : option kind) :
  final_kind (a ++ b) l = final_kind b (final_kind a l).
Proof.
  revert l; induction a as [|e a IH]; intros l; [reflexivity|]. apply IH.
Qed.

Lemma thing_items_layout f g x :
  Forall (fun kv => forall l,
            f (fst kv) (snd kv) l
            = (layout (g (fst kv) (snd kv)) l, final_kind (g (fst kv) (snd kv)) l)) x ->
  forall l, thing_items f x l
            = (layout (items_emissions g x) l, final_kind (items_emissions g x) l).
Proof.
  induction 1 as [|[k v] x Hkv _ IH]; intros l; [reflexivity|].
  simpl in *. rewrite Hkv, IH, layout_app, final_kind_app. reflexivity.
Qed.

Lemma thing_kv_layout v : forall i k l,
  thing_kv i k v l = (layout (emissions_kv i k v) l, final_kind (emissions_kv i k v) l).
Proof.
  induction v as [| b | z | s | ls _ | x IHx] using json_ind_deep;
    intros i k l; try reflexivity.
  - simpl. rewrite app_nil_r. reflexivity.
  - cbn [thing_kv emissions_kv].
    rewrite (thing_items_layout (thing_kv (S i)) (emissions_kv (S i)) x).
    + simpl. reflexivity.
    + eapply Forall_impl; [|exact IHx]. intros [k' v'] H l'. apply H.
Qed.

(** [thing] lays out the flattened emission sequence. *)
Lemma thing_layout x i l :
  thing x i l = (layout (emissions x i) l, final_kind (emissions x i) l).
Proof.
  unfold thing, emissions. apply thing_items_layout.
  apply Forall_forall. intros [k v] _ l'. apply thing_kv_layout.
Qed.

Lemma thing_items_app f a b l :
  thing_items f (a ++ b) l
  = let '(o1, l1) := thing_items f a l in
    let '(o2, l2) := thing_items f b l1 in ((o1 ++ o2)%list, l2).
Proof.
  revert l; induction a as [|[k v] a IH]; intros l; simpl.
  - destruct (thing_items f b l); reflexivity.
  - destruct (f k v l) as [o0 l0]. rewrite IH.
    destruct (thing_items f a l0) as [o1 l1].
    destruct (thing_items f b l1) as [o2 l2]. now rewrite app_assoc.
Qed.

Lemma thing_app a b i l :
  thing (a ++ b) i l
  = let '(o1, l1) := thing a i l in
    let '(o2, l2) := thing b i l1 in ((o1 ++ o2)%list, l2).
Proof. apply thing_items_app. Qed.

(** One entry in the middle of an object. *)
Lemma thing_mid pre k v post i l :
  thing (pre ++ (k, v) :: post) i l
  = let '(o1, l1) := thing pre i l in
    let '(o2, l2) := thing_kv i k v l1 in
    let '(o3, l3) := thing post i l2 in ((o1 ++ o2 ++ o3)%list, l3).
Proof.
  rewrite thing_app. destruct (thing pre i l) as [o1 l1].
  unfold thing at 1; simpl. destruct (thing_kv i k v l1) as [o2 l2].
  fold (thing post i l2). destruct (thing post i l2). reflexivity.
Qed.

Lemma main_out doc x :
  prepare doc = inr x -> out (main doc) = layout (emissions x 3) None.
Proof.
  intros H. unfold main, script. rewrite H, thing_layout. reflexivity.
Qed.

Lemma layout_In e es : forall l, In e es ->
  exists A B, layout es l = (A ++ emit_lines e ++ B)%list.
Proof.
  induction es as [|e' es IH]; intros l Hin; [destruct Hin|].
  destruct Hin as [<-|Hin].
  - eexists _, _. reflexivity.
  - destruct (IH (Some (emission_kind e')) Hin) as (A & B & HAB).
    simpl. rewrite HAB.
    exists ((if is_group e' && blank_before l then [""] else []) ++ emit_lines e' ++ A)%list, B.
    now rewrite !app_assoc.
Qed.

Lemma In_items_emissions g x k v e :
  In (k, v) x -> In e (g k v) -> In e (items_emissions g x).
Proof.
  induction x as [|[k' v'] x IH]; intros Hx He; [destruct Hx|].
  simpl. apply in_or_app. destruct Hx as [Heq|Hx].
  - injection Heq as -> ->. now left.
  - right. now apply IH.
Qed.

Lemma group_at_emission x d k :
  group_at x d k -> forall i, In (EGroup (i + d) k) (emissions x i).
Proof.
  induction 1 as [x k v Hin | x k' v d k Hin _ IH]; intros i.
  - eapply In_items_emissions; [exact Hin|]. rewrite Nat.add_0_r. now left.
  - eapply In_items_emissions; [exact Hin|]. right.
    replace (i + S d) with (S i + d) by lia. apply IH.
Qed.

(** Every Group node of the rendered object has its heading line in the
    output, directly followed by an empty line. *)
Lemma group_heading_in_out doc x d k :
  prepare doc = inr x -> group_at x d k ->
  exists A B, out (main doc) = (A ++ heading (3 + d) k :: "" :: B)%list.
Proof.
  intros Hp Hg. rewrite (main_out _ _ Hp).
  exact (layout_In (EGroup (3 + d) k) _ None (group_at_emission _ _ _ Hg 3)).
Qed.

Lemma count_leading_repeat n s :
  count_leading "#"%char (repeat_char "#"%char n ++ " " ++ s) = n.
Proof.
  induction n as [|n IH]; [reflexivity|].
  cbn [repeat_char append count_leading]. rewrite Ascii.eqb_refl.
  exact (f_equal S IH).
Qed.

Lemma lookup_py_del_none k o : lookup k o = None <-> py_del k o = None.
Proof.
  induction o as [|[k' v] o IH]; simpl; [tauto|].
  destruct (String.eqb k k'); [split; discriminate|].
  rewrite IH. destruct (py_del k o); simpl; split; congruence.
Qed.

Lemma lookup_py_del_other k k' o o' :
  k <> k' -> py_del k' o = Some o' -> lookup k o' = lookup k o.
Proof.
  intros Hne. revert o'. induction o as [|[k0 v] o IH]; intros o' H; simpl in H;
    [discriminate|].
  destruct (String.eqb_spec k' k0) as [->|Hne'].
  - injection H as <-. simpl. apply String.eqb_neq in Hne. now rewrite Hne.
  - destruct (py_del k' o) as [o1|] eqn:E; [|discriminate].
    injection H as <-. simpl. now rewrite (IH _ eq_refl).
Qed.

Lemma filter_key_notin k (o : list (string * json)) :
  ~ In k (map fst o) -> filter (fun kv => negb (String.eqb k (fst kv))) o = o.
Proof.
  induction o as [|[k0 v] o IH]; intros Hn; [reflexivity|].
  simpl in *. destruct (String.eqb_spec k k0) as [->|_]; [tauto|].
  simpl. f_equal. apply IH. tauto.
Qed.

Lemma py_del_filter k o o' :
  NoDup (map fst o) -> py_del k o = Some o' ->
  o' = filter (fun kv => negb (String.eqb k (fst kv))) o.
Proof.
  revert o'. induction o as [|[k0 v] o IH]; intros o' Hnd H; simpl in H;
    [discriminate|].
  simpl in Hnd. inversion Hnd as [|? ? Hnotin Hnd']; subst. simpl.
  destruct (String.eqb_spec k k0) as [->|Hne].
  - injection H as <-. symmetry. now apply filter_key_notin.
  - destruct (py_del k o) as [o1|] eqn:E; [|discriminate].
    injection H as <-. simpl. f_equal. now apply IH.
Qed.

Lemma NoDup_filter_keys f (o : list (string * json)) :
  NoDup (map fst o) -> NoDup (map fst (filter f o)).
Proof.
  induction o as [|[k v] o IH]; intros Hnd; [constructor|].
  simpl in *. inversion Hnd as [|? ? Hnotin Hnd']; subst.
  destruct (f (k, v)); simpl; [|now apply IH].
  constructor; [|now apply IH].
  intros Hin. apply Hnotin. apply in_map_iff in Hin as ([k1 v1] & Hk & Hin).
  apply filter_In in Hin as [Hin _]. simpl in Hk; subst.
  now apply (in_map fst) in Hin.
Qed.

(** ** Sample documents *)

Definition docs_of (rest : list (string * json)) : json :=
  JObj [("docs", JObj (("name", JStr "n") :: ("description", JStr "d") :: rest))].

(** An Option followed by a Group. *)
Definition rest_option_group : list (string * json) :=
  [("a", JStr "x"); ("b", JObj [])].

(** Three nested Groups, an Option, then a Group after it. *)
Definition rest_groups : list (string * json) :=
  [("general_settings", JObj [("timeout", JObj [("unit", JObj [])]);
                               ("secs", JStr "Seconds.")]);
   ("other", JObj [])].

(** ** C1: the blank line before a Group heading *)

(** Claim C1 (counterexample): the claim says no blank line is inserted
    between an Option emission and a Group emission right after it; the
    code inserts one. *)
Lemma C1_option_then_group_blank :
  emissions rest_option_group 3 = [EOption "a" "x"; EGroup 3 "b"] /\
  out (main (docs_of rest_option_group))
  = (emit_lines (EOption "a" "x") ++ [""] ++ emit_lines (EGroup 3 "b"))%list.
Proof. split; reflexivity. Qed.

(** Claim C1 (amended): in the flattened emission order, (1) nothing
    precedes the first emission; (2) two consecutive Group emissions are
    separated by exactly the one empty line printed after the first
    heading, with no blank line inserted; (3) a Group emission right after
    an Option or RawLines emission gets one inserted blank line. *)
Theorem C1_blank_line_rule doc x :
  prepare doc = inr x ->
  (forall e es, emissions x 3 = e :: es ->
     out (main doc) = (emit_lines e ++ layout es (Some (emission_kind e)))%list) /\
  (forall pre i1 k1 i2 k2 post,
     emissions x 3 = (pre ++ EGroup i1 k1 :: EGroup i2 k2 :: post)%list ->
     out (main doc)
     = (layout pre None
        ++ (if blank_before (final_kind pre None) then [""] else [])
        ++ [heading i1 k1; ""; heading i2 k2; ""]
        ++ layout post (Some KDict))%list) /\
  (forall pre e1 i2 k2 post, is_group e1 = false ->
     emissions x 3 = (pre ++ e1 :: EGroup i2 k2 :: post)%list ->
     out (main doc)
     = (layout pre None ++ emit_lines e1 ++ [""; heading i2 k2; ""]
        ++ layout post (Some KDict))%list).
Proof.
  intros Hp. rewrite (main_out _ _ Hp). split; [|split].
  - intros e es ->. simpl. now destruct (is_group e).
  - intros pre i1 k1 i2 k2 post ->. rewrite layout_app. simpl. reflexivity.
  - intros pre e1 i2 k2 post Hg ->. rewrite layout_app. simpl.
    destruct e1; try discriminate; simpl; now rewrite <- ?app_assoc.
Qed.

Lemma C1_blank_line_rule_witness :
  prepare (docs_of rest_option_group) = inr rest_option_group /\
  out (main (docs_of rest_option_group)) = ["- `a`: x"; ""; "### B"; ""].
Proof.
  split; [reflexivity|].
  destruct (C1_blank_line_rule (docs_of rest_option_group) rest_option_group
              eq_refl) as (_ & _ & H3).
  rewrite (H3 [] (EOption "a" "x") 3 "b" [] eq_refl eq_refl). reflexivity.
Defined.

(** ** C2, C3: Group headings *)

(** Claim C2: the Group with key [k] at structural depth [d] below the
    rendered object has its own heading line [heading (3 + d) k] in the
    output; that line starts with exactly [3 + d] ['#'] characters, and
    the next output line is empty. *)
Theorem C2_heading_depth doc x d k :
  prepare doc = inr x -> group_at x d k ->
  exists A B,
    out (main doc) = (A ++ heading (3 + d) k :: "" :: B)%list /\
    count_leading "#"%char (heading (3 + d) k) = 3 + d.
Proof.
  intros Hp Hg. destruct (group_heading_in_out doc x d k Hp Hg) as (A & B & H).
  exists A, B. split; [exact H|]. apply count_leading_repeat.
Qed.

Lemma C2_heading_depth_witness :
  prepare (docs_of rest_groups) = inr rest_groups /\
  group_at rest_groups 2 "unit" /\
  exists A B,
    out (main (docs_of rest_groups)) = (A ++ "##### Unit" :: "" :: B)%list /\
    count_leading "#"%char "##### Unit" = 5.
Proof.
  assert (Hg : group_at rest_groups 2 "unit").
  { eapply group_below; [left; reflexivity|].
    eapply group_below; [left; reflexivity|].
    eapply group_here. left; reflexivity. }
  split; [reflexivity|]. split; [exact Hg|].
  exact (C2_heading_depth (docs_of rest_groups) rest_groups 2 "unit" eq_refl Hg).
Defined.

(** Claim C3: the heading of a Group with key [k] reads, after its marker
    and a space, [k] with every ['_'] replaced by a space and then
    title-cased; [general_settings] gives [General Settings]. *)
Theorem C3_heading_text doc x d k :
  prepare doc = inr x -> group_at x d k ->
  (exists A B,
     out (main doc)
     = (A ++ (repeat_char "#"%char (3 + d) ++ " "
              ++ py_title (replace_underscore k))%string :: B)%list) /\
  py_title (replace_underscore "general_settings") = "General Settings".
Proof.
  intros Hp Hg. split; [|reflexivity].
  destruct (group_heading_in_out doc x d k Hp Hg) as (A & B & H).
  exists A, ("" :: B). exact H.
Qed.

Lemma C3_heading_text_witness :
  prepare (docs_of rest_groups) = inr rest_groups /\
  group_at rest_groups 0 "general_settings" /\
  exists A B, out (main (docs_of rest_groups)) = (A ++ "### General Settings" :: B)%list.
Proof.
  assert (Hg : group_at rest_groups 0 "general_settings")
    by (eapply group_here; left; reflexivity).
  split; [reflexivity|]. split; [exact Hg|].
  destruct (C3_heading_text (docs_of rest_groups) rest_groups 0 "general_settings"
              eq_refl Hg) as ((A & B & H) & _).
  exists A, B. exact H.
Defined.

(** ** C4, C5: Option and RawLines entries *)

(** Claim C4: an entry [(k, s)] with a string value, anywhere in an object
    rendered by [thing], prints exactly the one line [- `k`: s] between
    the output of the entries before it and after it, and the entries
    after it start from [last = str]. *)
Theorem C4_option_line pre k s post i l :
  thing (pre ++ (k, JStr s) :: post) i l
  = let '(o1, _) := thing pre i l in
    let '(o3, l3) := thing post i (Some KStr) in
    ((o1 ++ ("- `" ++ k ++ "`: " ++ s)%string :: o3)%list, l3).
Proof.
  rewrite thing_mid. destruct (thing pre i l) as [o1 l1]. simpl.
  destruct (thing post i (Some KStr)). reflexivity.
Qed.

(** Claim C5: an entry whose value is a list of strings prints its
    strings verbatim, one line each, in order, and nothing else; the
    entries after it start from [last = list]. *)
Theorem C5_raw_lines pre k ls post i l :
  thing (pre ++ (k, JArr (map JStr ls)) :: post) i l
  = let '(o1, _) := thing pre i l in
    let '(o3, l3) := thing post i (Some KList) in
    ((o1 ++ ls ++ o3)%list, l3).
Proof.
  rewrite thing_mid. destruct (thing pre i l) as [o1 l1]. simpl.
  rewrite map_map. simpl. rewrite map_id.
  destruct (thing post i (Some KList)). reflexivity.
Qed.

(** ** C6, C7: loading the document *)

(** Claim C6: a document without [docs], or whose [docs] lacks [name] or
    [description], makes the script raise [KeyError] with no line printed. *)
Theorem C6_missing_key top :
  (lookup "docs" top = None \/
   exists d, lookup "docs" top = Some (JObj d) /\
             (lookup "name" d = None \/ lookup "description" d = None)) ->
  out (main (JObj top)) = [] /\ error (main (JObj top)) = Some KeyError.
Proof.
  intros [Hd | (d & Hd & [Hn | Hdesc])]; unfold main, script, prepare; rewrite Hd.
  - split; reflexivity.
  - apply lookup_py_del_none in Hn. rewrite Hn. split; reflexivity.
  - destruct (py_del "name" d) as [x1|] eqn:E1; [|split; reflexivity].
    assert (Hx1 : lookup "description" x1 = None).
    { rewrite (lookup_py_del_other "description" "name" d x1); [exact Hdesc|discriminate|exact E1]. }
    apply lookup_py_del_none in Hx1. rewrite Hx1. split; reflexivity.
Qed.

Lemma C6_missing_key_witness :
  out (main (JObj [("docs", JObj [("name", JStr "n"); ("x", JStr "y")])])) = [] /\
  error (main (JObj [("docs", JObj [("name", JStr "n"); ("x", JStr "y")])]))
  = Some KeyError.
Proof.
  apply C6_missing_key. right.
  exists [("name", JStr "n"); ("x", JStr "y")]. split; [reflexivity|].
  right; reflexivity.
Defined.

(** Claim C7: after a complete run, the rendered object is the loaded
    [docs] object with [name] and [description] removed and every other
    entry, with its value, kept in order. *)
Theorem C7_only_deletions top d x :
  lookup "docs" top = Some (JObj d) -> NoDup (map fst d) ->
  docs_after (main (JObj top)) = Some x ->
  x = filter (fun kv => negb (String.eqb "description" (fst kv)))
             (filter (fun kv => negb (String.eqb "name" (fst kv))) d).
Proof.
  intros Hd Hnd. unfold main, script, prepare. rewrite Hd.
  destruct (py_del "name" d) as [x1|] eqn:E1; [|discriminate].
  destruct (py_del "description" x1) as [x2|] eqn:E2; [|discriminate].
  destruct (thing x2 3 None). simpl. intros H. injection H as <-.
  apply py_del_filter in E1 as ->; [|exact Hnd].
  apply py_del_filter in E2 as ->; [reflexivity|].
  now apply NoDup_filter_keys.
Qed.

Lemma C7_only_deletions_witness :
  docs_after (main (docs_of rest_groups)) = Some rest_groups /\
  rest_groups
  = filter (fun kv => negb (String.eqb "description" (fst kv)))
      (filter (fun kv => negb (String.eqb "name" (fst kv)))
         (("name", JStr "n") :: ("description", JStr "d") :: rest_groups)).
Proof.
  split; [reflexivity|].
  apply (C7_only_deletions
           [("docs", JObj (("name", JStr "n") :: ("description", JStr "d") :: rest_groups))]
           (("name", JStr "n") :: ("description", JStr "d") :: rest_groups)
           rest_groups); [reflexivity| |reflexivity].
  vm_compute. repeat constructor; simpl; intuition discriminate.
Defined.

(** ** C8: determinism *)

(** Claim C8: whatever [last] held before, a run of the script on a
    document has one outcome, so two runs print the same lines. *)
Theorem C8_deterministic g1 g2 doc :
  script g1 doc = script g2 doc /\ out (script g1 doc) = out (main doc).
Proof. split; reflexivity. Qed.

(** ** C9, C10: values without a branch, empty lists *)

(** Claim C9: an entry whose value is null, a boolean or a number prints
    nothing, raises nothing and leaves [last] alone: rendering is as if the
    entry were absent. *)
Theorem C9_scalar_skipped pre k v post i l :
  is_scalar v = true ->
  thing (pre ++ (k, v) :: post) i l = thing (pre ++ post) i l.
Proof.
  intros Hs. rewrite thing_mid, thing_app.
  destruct (thing pre i l) as [o1 l1].
  assert (Hkv : thing_kv i k v l1 = ([], l1)) by (destruct v; try discriminate; reflexivity).
  rewrite Hkv. reflexivity.
Qed.

Lemma C9_scalar_skipped_witness :
  is_scalar (JNum 7) = true /\
  thing ([("a", JStr "x")] ++ ("n", JNum 7) :: [("b", JObj [])]) 3 None
  = thing ([("a", JStr "x")] ++ [("b", JObj [])]) 3 None.
Proof.
  split; [reflexivity|]. apply C9_scalar_skipped. reflexivity.
Defined.

(** Claim C10: an empty list prints no line but sets [last] to [list], so
    a Group right after it is preceded by an inserted blank line, whatever
    was emitted before. *)
Theorem C10_empty_raw_lines k k' v rest i l :
  thing_kv i k (JArr []) l = ([], Some KList) /\
  thing ((k, JArr []) :: (k', JObj v) :: rest) i l
  = let '(o, l1) := thing v (S i) (Some KDict) in
    let '(o2, l2) := thing rest i l1 in
    (("" :: heading i k' :: "" :: o ++ o2)%list, l2).
Proof.
  split; [reflexivity|].
  change ((k, JArr []) :: (k', JObj v) :: rest)
    with ([(k, JArr [])] ++ (k', JObj v) :: rest)%list.
  rewrite thing_mid. simpl. fold (thing v (S i) (Some KDict)).
  destruct (thing v (S i) (Some KDict)) as [o l1].
  destruct (thing rest i l1) as [o2 l2]. reflexivity.
Qed.

(** ** Further properties of the script *)

(** X1: when [docs] has distinct keys, a run prints exactly the rendering
    at depth 3, from [last = None], of [docs] without its [name] and
    [description] entries, wherever they stand. *)
Theorem X_output_of_run top d :
  lookup "docs" top = Some (JObj d) -> NoDup (map fst d) ->
  lookup "name" d <> None -> lookup "description" d <> None ->
  out (main (JObj top))
  = fst (thing (filter (fun kv => negb (String.eqb "description" (fst kv)))
                  (filter (fun kv => negb (String.eqb "name" (fst kv))) d)) 3 None).
Proof.
  intros Hd Hnd Hn Hdesc. unfold main, script, prepare. rewrite Hd.
  destruct (py_del "name" d) as [x1|] eqn:E1;
    [|apply lookup_py_del_none in E1; contradiction].
  rewrite <- (lookup_py_del_other "description" "name" d x1) in Hdesc;
    [|discriminate|exact E1].
  destruct (py_del "description" x1) as [x2|] eqn:E2;
    [|apply lookup_py_del_none in E2; contradiction].
  apply py_del_filter in E1 as E1'; [|exact Hnd].
  apply py_del_filter in E2 as E2'; [|subst x1; now apply NoDup_filter_keys].
  subst x1 x2. destruct (thing _ 3 None). reflexivity.
Qed.

Lemma X_output_of_run_witness :
  out (main (JObj [("docs", JObj [("a", JStr "x"); ("description", JStr "d");
                                  ("name", JStr "n"); ("b", JObj [])])]))
  = ["- `a`: x"; ""; "### B"; ""].
Proof.
  rewrite (X_output_of_run _ [("a", JStr "x"); ("description", JStr "d");
                              ("name", JStr "n"); ("b", JObj [])]);
    [reflexivity|reflexivity| |discriminate|discriminate].
  vm_compute. repeat constructor; simpl; intuition discriminate.
Defined.

(** X2: rendering two halves of an object one after the other gives the
    rendering of the whole, the second half starting from the [last] the
    first left behind. *)
Theorem X_thing_concat a b i l :
  fst (thing (a ++ b) i l)
  = (fst (thing a i l) ++ fst (thing b i (snd (thing a i l))))%list /\
  snd (thing (a ++ b) i l) = snd (thing b i (snd (thing a i l))).
Proof.
  rewrite thing_app. destruct (thing a i l) as [o1 l1]. cbn [fst snd].
  destruct (thing b i l1) as [o2 l2]. split; reflexivity.
Qed.

(** X3: the value of [last] on entry to [thing] changes at most one
    thing: whether a blank line comes first. *)
Theorem X_initial_last_only_leading_blank x i :
  exists b : bool, forall l,
    fst (thing x i l)
    = ((if b && blank_before l then [""] else []) ++ fst (thing x i None))%list.
Proof.
  rewrite (surjective_pairing (thing x i None)).
  destruct (emissions x i) as [|e es] eqn:E.
  - exists false. intros l. rewrite !thing_layout, E. reflexivity.
  - exists (is_group e). intros l. rewrite !thing_layout, E. simpl.
    now rewrite andb_false_r.
Qed.

Lemma em_len_app a b : em_len (a ++ b) = em_len a + em_len b.
Proof. induction a as [|e a IH]; simpl; lia. Qed.

Lemma em_groups_app a b : em_groups (a ++ b) = em_groups a + em_groups b.
Proof. induction a as [|e a IH]; simpl; lia. Qed.

Lemma layout_length_bounds es : forall l,
  em_len es <= length (layout es l) <= em_len es + em_groups es.
Proof.
  induction es as [|e es IH]; intros l; simpl; [lia|].
  specialize (IH (Some (emission_kind e))). rewrite !length_app.
  destruct (is_group e), (blank_before l); simpl; lia.
Qed.

Lemma emissions_kv_counts v : forall i k,
  em_len (emissions_kv i k v) = 2 * n_groups v + n_options v + n_raw v /\
  em_groups (emissions_kv i k v) = n_groups v.
Proof.
  induction v as [| b | z | s | ls _ | x IHx] using json_ind_deep;
    intros i k; simpl; try (split; reflexivity).
  - rewrite length_map. split; lia.
  - induction IHx as [|[k' v'] x Hv _ IHrest]; intros; simpl; [split; lia|].
    simpl in Hv. destruct (Hv (S i) k') as [H1 H2].
    destruct IHrest as [H3 H4].
    rewrite em_len_app, em_groups_app. split; lia.
Qed.

Lemma emissions_counts x i :
  em_len (emissions x i)
  = 2 * list_sum (map (fun '(_, v) => n_groups v) x)
    + list_sum (map (fun '(_, v) => n_options v) x)
    + list_sum (map (fun '(_, v) => n_raw v) x) /\
  em_groups (emissions x i) = list_sum (map (fun '(_, v) => n_groups v) x).
Proof.
  unfold emissions. induction x as [|[k v] x [IH1 IH2]]; simpl; [split; lia|].
  destruct (emissions_kv_counts v i k) as [H1 H2].
  rewrite em_len_app, em_groups_app. split; lia.
Qed.

(** X4: [thing] prints at least two lines per Group (heading and empty
    line), one per Option and one per RawLines element, and at most one
    more line per Group (the inserted blank). *)
Theorem X_line_count_bounds x i l :
  let G := list_sum (map (fun '(_, v) => n_groups v) x) in
  let S := list_sum (map (fun '(_, v) => n_options v) x) in
  let R := list_sum (map (fun '(_, v) => n_raw v) x) in
  2 * G + S + R <= length (fst (thing x i l)) <= 3 * G + S + R.
Proof.
  intros G S R. rewrite thing_layout. simpl.
  destruct (emissions_counts x i) as [H1 H2].
  pose proof (layout_length_bounds (emissions x i) l). subst G S R. lia.
Qed.

(** X5: an object with no dict value prints its bullet and raw lines in
    key order and nothing else: no blank line is inserted. *)
Theorem X_no_group_flat x i l :
  forallb (fun '(_, v) => match v with JObj _ => false | _ => true end) x = true ->
  fst (thing x i l) = concat (map flat_entry_lines x).
Proof.
  unfold thing. revert l. induction x as [|[k v] x IH]; intros l Hx; [reflexivity|].
  simpl in Hx. apply andb_true_iff in Hx as [Hv Hx].
  simpl. destruct v; try discriminate; simpl;
    match goal with
    | |- context [thing_items ?f x ?l'] =>
        rewrite (surjective_pairing (thing_items f x l')); simpl; f_equal; auto
    end.
Qed.

Lemma X_no_group_flat_witness :
  fst (thing [("a", JStr "x"); ("n", JNull); ("r", JArr [JStr "l1"; JNum 2])] 3 (Some KDict))
  = ["- `a`: x"; "l1"; "2"].
Proof. rewrite X_no_group_flat; reflexivity. Defined.

Lemma heading_not_bullet i k : String.prefix "- `" (heading i k) = false.
Proof. destruct i; reflexivity. Qed.

Lemma thing_items_bullets i x :
  Forall (fun kv => forall i k l, no_list (snd kv) = true ->
            filter (String.prefix "- `") (fst (thing_kv i k (snd kv) l))
            = map (fun '(k', s) => bullet k' s) (str_leaves k (snd kv))) x ->
  forall l, forallb (fun '(_, v) => no_list v) x = true ->
  filter (String.prefix "- `") (fst (thing_items (thing_kv i) x l))
  = map (fun '(k', s) => bullet k' s) (concat (map (fun '(k, v) => str_leaves k v) x)).
Proof.
  induction 1 as [|[k v] x Hv _ IH]; intros l Hx; [reflexivity|].
  simpl in Hx, Hv. apply andb_true_iff in Hx as [Hvl Hx]. simpl.
  rewrite (surjective_pairing (thing_kv i k v l)).
  rewrite (surjective_pairing (thing_items _ x _)). simpl.
  rewrite filter_app, map_app, (Hv i k l Hvl), IH by exact Hx. reflexivity.
Qed.

Lemma thing_kv_bullets v : forall i k l, no_list v = true ->
  filter (String.prefix "- `") (fst (thing_kv i k v l))
  = map (fun '(k', s) => bullet k' s) (str_leaves k v).
Proof.
  induction v as [| b | z | s | ls _ | x IHx] using json_ind_deep;
    intros i k l Hv; try reflexivity.
  - simpl. unfold bullet. simpl. now destruct (k ++ _)%string.
  - discriminate.
  - simpl in Hv. simpl.
    rewrite (surjective_pairing (thing_items _ x _)). simpl.
    rewrite filter_app. simpl. rewrite heading_not_bullet.
    rewrite (thing_items_bullets (S i) x IHx (Some KDict) Hv).
    destruct (blank_before l); reflexivity.
Qed.

(** X6: for an object with no list value at any depth, the lines that
    start with "- `" are exactly the bullet lines of its string values,
    one per value, in depth-first key order. *)
Theorem X_bullets_in_order x i l :
  forallb (fun '(_, v) => no_list v) x = true ->
  filter (String.prefix "- `") (fst (thing x i l))
  = map (fun '(k, s) => bullet k s) (concat (map (fun '(k, v) => str_leaves k v) x)).
Proof.
  intros Hx. unfold thing. apply thing_items_bullets; [|exact Hx].
  apply Forall_forall. intros [k v] _ i' k' l' Hv. now apply thing_kv_bullets.
Qed.

Lemma X_bullets_in_order_witness :
  filter (String.prefix "- `") (fst (thing rest_groups 3 None))
  = ["- `secs`: Seconds."].
Proof. rewrite X_bullets_in_order; reflexivity. Defined.
